(** * zapd: transfer watcher and supervisor loop of [zapd/app.py]

    A shallow embedding of [on_transfer_utx], [sigint_handler] and the
    [__main__] supervision loop.  The program talks to collaborators that
    live in other modules ([logger], [utils], [rpc], [utx], [gevent]); every
    call on one of them is recorded, in program order, in a call trace that
    is threaded through the code by a small state monad. *)

From Stdlib Require Import List String ZArith Bool Lia.
From Stdlib.Strings Require Import Byte.
From Stdlib Require DecimalString.
Import ListNotations.
Local Open Scope string_scope.

(** ** Data *)

Definition bytes := list byte.

(** Levels of Python's [logging] module, with their numeric values. *)
Inductive Level := DEBUG | INFO | WARNING | ERROR.

Definition levelno (l : Level) : Z :=
  match l with
  | DEBUG => 10
  | INFO => 20
  | WARNING => 30
  | ERROR => 40
  end.

(** [logging] has no TRACE level; its finest level is [DEBUG], which is the
    most lenient reading of "trace level". *)
Definition trace_level : Z := levelno DEBUG.

Definition above_trace_level (l : Level) : bool := (trace_level <? levelno l)%Z.

(** The two supervised workers: [zaprpc = rpc.ZapRPC()] and
    [wutx = utx.WavesUTX(None, on_transfer_utx)]. *)
Inductive Task := ZapRPC | WavesUTX.

(** Log records: plain text, or the f-string of [on_transfer_utx] kept as
    its interpolated fields. *)
Inductive LogMsg :=
| Msg_text (s : string)
| Msg_transfer (txid : string) (recipient : string) (amount : Z) (attachment : bytes).

(** One constructor per call the program makes on a collaborator. *)
Inductive Call :=
| Call_log (lvl : Level) (msg : LogMsg)
| Call_address_from_public_key (pubkey : bytes)
| Call_extract_invoice_id (attachment : bytes)
| Call_create_signed_payment_notification
    (txid : string) (timestamp : Z) (recipient from_ : string) (amount : Z)
    (invoice_id : option string)
| Call_webhook (msg sig : bytes)
| Call_email_death (msg : string)
| Call_email_alive (msg : string)
| Call_start (t : Task)
| Call_stop (t : Task).

(** Module-level variables of [app.py] that change while it runs, and the
    calls made so far. *)
Record State := mkState {
  keep_running : bool;
  sent_start_email : bool;
  trace : list Call
}.

(** ** The state monad the code runs in *)

Definition M (A : Type) : Type := State -> A * State.

Definition ret {A} (a : A) : M A := fun st => (a, st).

Definition bind {A B} (m : M A) (k : A -> M B) : M B :=
  fun st => let (a, st') := m st in k a st'.

Declare Scope prog_scope.
Delimit Scope prog_scope with prog.
Notation "x <- m ;; k" := (bind m (fun x => k))
  (at level 61, m at next level, right associativity) : prog_scope.
Notation "' p <- m ;; k" := (bind m (fun x => let p := x in k))
  (at level 61, p pattern, m at next level, right associativity) : prog_scope.
Notation "m ;; k" := (bind m (fun _ => k))
  (at level 61, right associativity) : prog_scope.
Local Open Scope prog_scope.

Definition exec {A} (m : M A) (st : State) : State := snd (m st).

Definition call (c : Call) : M unit :=
  fun st => (tt, mkState (keep_running st) (sent_start_email st) (trace st ++ [c])).

Definition set_keep_running (b : bool) : M unit :=
  fun st => (tt, mkState b (sent_start_email st) (trace st)).

Definition set_sent_start_email (b : bool) : M unit :=
  fun st => (tt, mkState (keep_running st) b (trace st)).

Definition get_sent_start_email : M bool := fun st => (sent_start_email st, st).

Definition logger_info (m : LogMsg) : M unit := call (Call_log INFO m).
Definition logger_warning (m : LogMsg) : M unit := call (Call_log WARNING m).
Definition logger_error (m : LogMsg) : M unit := call (Call_log ERROR m).

(** The arguments the feed passes to the callback, as one record. *)
Record TransferUtx := mkTransferUtx {
  tx_txid : string;
  tx_sig : bytes;
  tx_pubkey : bytes;
  tx_asset_id : option string;
  tx_timestamp : Z;
  tx_amount : Z;
  tx_fee : Z;
  tx_recipient : bytes;
  tx_attachment : bytes
}.

(** What can happen while the main loop sleeps: the interrupt signal is
    delivered, or the feed hands a transfer to the callback. *)
Inductive Arrival :=
| SIGINT
| Transfer (e : TransferUtx).

(** A greenlet as the loop sees it: only [g.started] is read. *)
Record Greenlet := mkGreenlet { started : bool }.

(** One poll of the main loop: what arrived during [gevent.sleep(1)], and
    the pool group afterwards.  A [gevent.pool.Group] drops a greenlet when
    it finishes, so [len(group)] counts the greenlets still running. *)
Record Poll := mkPoll {
  arrivals : list Arrival;
  group : list Greenlet
}.

Inductive Flow := Continue | Break.

(** Result of running the loop over finitely many polls: it left the
    [while], or it is still polling when the observations end. *)
Inductive Run :=
| Exited (st : State)
| Polling (st : State).

Definition run_state (r : Run) : State :=
  match r with
  | Exited st => st
  | Polling st => st
  end.

(** ** Attachment codec *)

Module AttachmentCodec.

(** Python exceptions the parsing steps can raise. *)
Inductive Exn := IndexError | ValueError.

(** A Python call either returns a value or raises. *)
Inductive Outcome (A : Type) :=
| Returns (a : A)
| Raises (e : Exn).
Arguments Returns {A} a.
Arguments Raises {A} e.

Definition and_then {A B} (o : Outcome A) (k : A -> Outcome B) : Outcome B :=
  match o with
  | Returns a => k a
  | Raises e => Raises e
  end.

(** [try: body / except: handler] *)
Definition try_except {A} (body : Outcome A) (handler : Exn -> Outcome A) : Outcome A :=
  match body with
  | Returns a => Returns a
  | Raises e => handler e
  end.

(** Modelled from the spec: the tag of the "tagged length-prefixed field";
    the spec names no value, any fixed byte serves. *)
Definition INVOICE_TAG : byte := x01.

Definition read_byte (bs : bytes) : Outcome (byte * bytes) :=
  match bs with
  | [] => Raises IndexError
  | b :: rest => Returns (b, rest)
  end.

(** Modelled from the spec: [utils.extract_invoice_id] is not among the
    sources; the spec (4.1) gives its format as "a tagged length-prefixed
    field".  One tag byte, one length byte, then exactly that many bytes
    of invoice id; every other input makes a parsing step raise. *)
Definition parse_field (bs : bytes) : Outcome string :=
  and_then (read_byte bs) (fun '(tag, rest) =>
  if Byte.eqb tag INVOICE_TAG then
    and_then (read_byte rest) (fun '(len, payload) =>
    if N.eqb (N.of_nat (List.length payload)) (Byte.to_N len)
    then Returns (string_of_list_byte payload)
    else Raises ValueError)
  else Raises ValueError).

(** Modelled from the spec: [decode(attachment) -> InvoiceId | absent]
    of the absent [utils.extract_invoice_id]; "malformed, empty, or
    semantically-unrelated attachment content yields absent rather than
    an error". *)
Definition decode (attachment : bytes) : Outcome (option string) :=
  try_except
    (and_then (parse_field attachment) (fun id => Returns (Some id)))
    (fun _ => Returns None).

(** Modelled from the spec: the encoder the scenario
    [attachment=encode(invoiceId="INV-42")] names; ids longer than one
    length byte can count have no encoding. *)
Definition encode (invoice_id : string) : option bytes :=
  let payload := list_byte_of_string invoice_id in
  match Byte.of_N (N.of_nat (List.length payload)) with
  | Some len => Some (INVOICE_TAG :: len :: payload)
  | None => None
  end.

(** What a caller that relies on the contract binds to [invoice_id]. *)
Definition invoice_id_of (attachment : bytes) : option string :=
  match decode attachment with
  | Returns r => r
  | Raises _ => None
  end.

End AttachmentCodec.

(** ** Notification signer *)

Module NotificationSigner.
Section Signer.

(** The daemon's signing key and the chain's signature scheme, both fixed
    by configuration. *)
Variable private_key : bytes.
Variable signature_scheme : bytes -> bytes -> bytes.

Definition encode_str (s : string) : bytes := list_byte_of_string s.

Definition encode_int (z : Z) : bytes :=
  list_byte_of_string (DecimalString.NilZero.string_of_int (Z.to_int z)).

Definition EMPTY_SENTINEL : bytes := [].

(** Modelled from the spec: the canonical serialization of the absent
    [utils.create_signed_payment_notification]; the spec (4.2) fixes the
    field order [txid], [timestamp], [recipient], [senderAddress],
    [amount], [invoiceId], "empty sentinel if absent". *)
Definition canonical_message (txid : string) (timestamp : Z)
    (recipient sender : string) (amount : Z) (invoice_id : option string) : bytes :=
  List.concat [ encode_str txid;
                encode_int timestamp;
                encode_str recipient;
                encode_str sender;
                encode_int amount;
                match invoice_id with
                | Some id => encode_str id
                | None => EMPTY_SENTINEL
                end ].

(** Modelled from the spec: [sign], the absent
    [utils.create_signed_payment_notification]; it "signs the canonical
    message with the daemon's private key" and "returns the signature
    alongside the message". *)
Definition sign (txid : string) (timestamp : Z)
    (recipient sender : string) (amount : Z) (invoice_id : option string)
    : bytes * bytes :=
  let msg := canonical_message txid timestamp recipient sender amount invoice_id in
  (msg, signature_scheme private_key msg).

End Signer.
End NotificationSigner.

(** ** Classifying the calls of a trace *)

Definition is_webhook (c : Call) : bool :=
  match c with Call_webhook _ _ => true | _ => false end.

Definition is_signing (c : Call) : bool :=
  match c with Call_create_signed_payment_notification _ _ _ _ _ _ => true | _ => false end.

Definition is_death (c : Call) : bool :=
  match c with Call_email_death _ => true | _ => false end.

Definition is_alive (c : Call) : bool :=
  match c with Call_email_alive _ => true | _ => false end.

Definition is_stop (c : Call) : bool :=
  match c with Call_stop _ => true | _ => false end.

Definition is_loud_log (c : Call) : bool :=
  match c with Call_log lvl _ => above_trace_level lvl | _ => false end.

Definition count (f : Call -> bool) (tr : list Call) : nat :=
  List.length (filter f tr).

Definition is_sigint (a : Arrival) : bool :=
  match a with SIGINT => true | Transfer _ => false end.

(** ** The program *)

Section App.

(** [base58.b58encode], [cfg.address] and the value-returning helpers of
    [utils], none of which [app.py] defines. *)
Variable base58_b58encode : bytes -> string.
Variable cfg_address : string.
Variable utils_address_from_public_key : bytes -> string.
Variable utils_extract_invoice_id : bytes -> option string.
Variable utils_create_signed_payment_notification :
  string -> Z -> string -> string -> Z -> option string -> bytes * bytes.

Definition address_from_public_key (pubkey : bytes) : M string :=
  call (Call_address_from_public_key pubkey) ;;
  ret (utils_address_from_public_key pubkey).

Definition extract_invoice_id (attachment : bytes) : M (option string) :=
  call (Call_extract_invoice_id attachment) ;;
  ret (utils_extract_invoice_id attachment).

Definition create_signed_payment_notification (txid : string) (timestamp : Z)
    (recipient from_ : string) (amount : Z) (invoice_id : option string)
    : M (bytes * bytes) :=
  call (Call_create_signed_payment_notification
          txid timestamp recipient from_ amount invoice_id) ;;
  ret (utils_create_signed_payment_notification
         txid timestamp recipient from_ amount invoice_id).

Definition call_webhook (msg sig : bytes) : M unit := call (Call_webhook msg sig).
Definition email_death (msg : string) : M unit := call (Call_email_death msg).
Definition email_alive (msg : string) : M unit := call (Call_email_alive msg).

(** [on_transfer_utx], app.py lines 39-47.  The parameter [sig] is
    rebound by the tuple assignment of line 46. *)
Definition on_transfer_utx (wutx : Task) (txid : string) (sig pubkey : bytes)
    (asset_id : option string) (timestamp amount fee : Z)
    (recipient attachment : bytes) : M unit :=
  let recipient := base58_b58encode recipient in
  logger_info (Msg_transfer txid recipient amount attachment) ;;
  if String.eqb recipient cfg_address then
    from_ <- address_from_public_key pubkey ;;
    invoice_id <- extract_invoice_id attachment ;;
    ' (msg, sig) <- create_signed_payment_notification
                      txid timestamp recipient from_ amount invoice_id ;;
    call_webhook msg sig
  else ret tt.

(** The callback applied to a feed record. *)
Definition handle (e : TransferUtx) : M unit :=
  on_transfer_utx WavesUTX (tx_txid e) (tx_sig e) (tx_pubkey e) (tx_asset_id e)
    (tx_timestamp e) (tx_amount e) (tx_fee e) (tx_recipient e) (tx_attachment e).

(** The transfer log record every delivery starts with. *)
Definition transfer_record (e : TransferUtx) : Call :=
  Call_log INFO (Msg_transfer (tx_txid e) (base58_b58encode (tx_recipient e))
                              (tx_amount e) (tx_attachment e)).

(** The calls of the matching branch, in program order. *)
Definition notification_calls (e : TransferUtx) : list Call :=
  let from_ := utils_address_from_public_key (tx_pubkey e) in
  let invoice_id := utils_extract_invoice_id (tx_attachment e) in
  let recipient := base58_b58encode (tx_recipient e) in
  let signed := utils_create_signed_payment_notification
                  (tx_txid e) (tx_timestamp e) recipient from_ (tx_amount e) invoice_id in
  [ Call_address_from_public_key (tx_pubkey e);
    Call_extract_invoice_id (tx_attachment e);
    Call_create_signed_payment_notification
      (tx_txid e) (tx_timestamp e) recipient from_ (tx_amount e) invoice_id;
    Call_webhook (fst signed) (snd signed) ].

(** [sigint_handler], app.py lines 49-52. *)
Definition sigint_handler : M unit :=
  logger_warning (Msg_text "SIGINT caught, attempting to exit gracefully") ;;
  set_keep_running false.

Definition deliver (a : Arrival) : M unit :=
  match a with
  | SIGINT => sigint_handler
  | Transfer e => handle e
  end.

(** [gevent.sleep(1)]: the loop yields, and what arrives meanwhile runs
    in arrival order. *)
Fixpoint gevent_sleep (arrived : list Arrival) : M unit :=
  match arrived with
  | [] => ret tt
  | a :: rest => deliver a ;; gevent_sleep rest
  end.

(** Lines 77-80: [send_start_email = True], cleared by any greenlet that
    has not started. *)
Definition all_started (g : list Greenlet) : bool :=
  fold_left (fun send_start_email g =>
               if negb (started g) then false else send_start_email)
            g true.

Definition DEAD_MSG : string := "one of our greenlets is dead X(".
Definition STARTED_MSG : string := "our greenlets have started :)".

(** The body of the [while], lines 68-85. *)
Definition poll (p : Poll) : M Flow :=
  gevent_sleep (arrivals p) ;;
  if (List.length (group p) <? 3)%nat then
    let msg := DEAD_MSG in
    logger_error (Msg_text msg) ;;
    email_death msg ;;
    ret Break
  else
    sent <- get_sent_start_email ;;
    if negb sent then
      let send_start_email := all_started (group p) in
      if send_start_email then
        set_sent_start_email true ;;
        let msg := STARTED_MSG in
        logger_info (Msg_text msg) ;;
        email_alive msg ;;
        ret Continue
      else ret Continue
    else ret Continue.

(** [while keep_running: ...], one [Poll] per iteration. *)
Fixpoint main_loop (polls : list Poll) (st : State) : Run :=
  if keep_running st then
    match polls with
    | [] => Polling st
    | p :: rest =>
        match poll p st with
        | (Break, st') => Exited st'
        | (Continue, st') => main_loop rest st'
        end
    end
  else Exited st.

(** Lines 59-66. *)
Definition startup : M unit :=
  logger_info (Msg_text "starting greenlets") ;;
  call (Call_start ZapRPC) ;;
  call (Call_start WavesUTX) ;;
  logger_info (Msg_text "main loop") ;;
  set_sent_start_email false.

(** Lines 86-88. *)
Definition shutdown : M unit :=
  logger_info (Msg_text "stopping greenlets") ;;
  call (Call_stop WavesUTX) ;;
  call (Call_stop ZapRPC).

(** The state in which the checks of a poll run. *)
Definition after_sleep (p : Poll) (st : State) : State :=
  exec (gevent_sleep (arrivals p)) st.

(** The calls of lines 71-73, of lines 83-85 and of lines 86-88. *)
Definition death_calls : list Call :=
  [Call_log ERROR (Msg_text DEAD_MSG); Call_email_death DEAD_MSG].

Definition started_calls : list Call :=
  [Call_log INFO (Msg_text STARTED_MSG); Call_email_alive STARTED_MSG].

Definition shutdown_calls : list Call :=
  [Call_log INFO (Msg_text "stopping greenlets"); Call_stop WavesUTX; Call_stop ZapRPC].

(** Line 54: [keep_running = True]; nothing has been called yet. *)
Definition initial : State := mkState true false [].

Definition booted : State := exec startup initial.

(** The [__main__] block run against a finite sequence of polls. *)
Definition main (polls : list Poll) : Run :=
  match main_loop polls booted with
  | Exited st => Exited (exec shutdown st)
  | Polling st => Polling st
  end.

(** Line 42: the test that lets an event through. *)
Definition is_match (e : TransferUtx) : bool :=
  String.eqb (base58_b58encode (tx_recipient e)) cfg_address.

(** The [utils.call_webhook] call of line 47 for the event [e]. *)
Definition webhook_of (e : TransferUtx) : Call :=
  let signed := utils_create_signed_payment_notification
                  (tx_txid e) (tx_timestamp e) (base58_b58encode (tx_recipient e))
                  (utils_address_from_public_key (tx_pubkey e)) (tx_amount e)
                  (utils_extract_invoice_id (tx_attachment e)) in
  Call_webhook (fst signed) (snd signed).

(** The webhook calls a batch of arrivals should lead to: one per matching
    transfer, in arrival order. *)
Definition expected_webhooks (arrived : list Arrival) : list Call :=
  flat_map (fun a => match a with
                     | SIGINT => []
                     | Transfer e => if is_match e then [webhook_of e] else []
                     end) arrived.

(** All the calls one arrival leads to. *)
Definition deliver_calls (a : Arrival) : list Call :=
  match a with
  | SIGINT =>
      [Call_log WARNING (Msg_text "SIGINT caught, attempting to exit gracefully")]
  | Transfer e =>
      if is_match e then transfer_record e :: notification_calls e
      else [transfer_record e]
  end.

End App.

(** The calls a computation adds to the trace when run from [st]. *)
Definition emitted {A} (m : M A) (st : State) : list Call :=
  skipn (List.length (trace st)) (trace (exec m st)).

(** Calls only the supervisor loop makes. *)
Definition supervisor_call (c : Call) : bool :=
  is_death c || is_alive c || is_stop c.

(** A stretch of trace in which the supervisor loop made no call. *)
Definition quiet (new : list Call) : Prop :=
  forallb (fun c => negb (supervisor_call c)) new = true.

(** The supervisor's bookkeeping: the "started" mail has gone out exactly
    when the flag says so. *)
Definition alive_matches_flag (st : State) : Prop :=
  count is_alive (trace st) = if sent_start_email st then 1%nat else 0%nat.

(** The calls of lines 59-65, before the loop is entered. *)
Definition startup_calls : list Call :=
  [ Call_log INFO (Msg_text "starting greenlets");
    Call_start ZapRPC;
    Call_start WavesUTX;
    Call_log INFO (Msg_text "main loop") ].

Definition is_start (c : Call) : bool :=
  match c with Call_start _ => true | _ => false end.

(** Calls that start or stop a task. *)
Definition is_boundary (c : Call) : bool := is_start c || is_stop c.

(** A poll after which the [while] is left: fewer than three greenlets
    (line 70), or [keep_running] cleared during the sleep (line 67). *)
Definition stops_loop (p : Poll) : bool :=
  (List.length (group p) <? 3)%nat || existsb is_sigint (arrivals p).

Definition exited (r : Run) : bool :=
  match r with
  | Exited _ => true
  | Polling _ => false
  end.

(** ** Vital settings of [app_core.py] *)

Module AppCore.

(** Values [app.config] holds. *)
Inductive Value :=
| VStr (s : string)
| VBool (b : bool)
| VInt (z : Z)
| VNone.

(** A Python dict with string keys, in insertion order. *)
Definition Dict := list (string * Value).

Fixpoint dict_get (d : Dict) (k : string) : option Value :=
  match d with
  | [] => None
  | (k', v) :: rest => if String.eqb k' k then Some v else dict_get rest k
  end.

(** [d[k] = v]: a key already present keeps its place, a new one goes last. *)
Fixpoint dict_set (d : Dict) (k : string) (v : Value) : Dict :=
  match d with
  | [] => [(k, v)]
  | (k', v') :: rest =>
      if String.eqb k' k then (k', v) :: rest else (k', v') :: dict_set rest k v
  end.

(** [os.getenv]: the environment does not change while the module loads. *)
Definition Env := string -> option string.

(** The two messages [set_vital_setting] prints, kept as their parts. *)
Inductive Line :=
| Line_missing (env_name : string)
| Line_not_acceptable (env_name : string) (acceptable_values : list string).

Record Settings := mkSettings {
  config : Dict;
  MISSING_VITAL_SETTING : bool;
  printed : list Line
}.

(** Truth value of a [str] or [None]: only a non-empty string is true. *)
Definition truthy (o : option string) : bool :=
  match o with
  | Some s => negb (String.eqb s "")
  | None => false
  end.

(** Lines 132-133: [if not setting_name: setting_name = env_name]. *)
Definition effective_name (env_name : string) (setting_name : option string) : string :=
  match setting_name with
  | Some s => if String.eqb s "" then env_name else s
  | None => env_name
  end.

(** [acceptable_values and value not in acceptable_values], line 137. *)
Definition rejected (value : string) (acceptable_values : option (list string)) : bool :=
  match acceptable_values with
  | Some (a :: rest) => negb (existsb (String.eqb value) (a :: rest))
  | _ => false
  end.

(** [set_vital_setting], app_core.py lines 129-142. *)
Definition set_vital_setting (getenv : Env) (env_name : string)
    (setting_name : option string) (acceptable_values : option (list string))
    (st : Settings) : Settings :=
  let setting_name := effective_name env_name setting_name in
  match getenv env_name with
  | Some value =>
      if String.eqb value "" then
        mkSettings (config st) true (printed st ++ [Line_missing env_name])
      else
        let cfg := dict_set (config st) setting_name (VStr value) in
        let cfg := dict_set cfg env_name (VStr value) in
        if rejected value acceptable_values then
          mkSettings cfg true
            (printed st ++ [Line_not_acceptable env_name
                              (match acceptable_values with Some l => l | None => [] end)])
        else mkSettings cfg (MISSING_VITAL_SETTING st) (printed st)
  | None =>
      mkSettings (config st) true (printed st ++ [Line_missing env_name])
  end.

(** The calls of lines 144-162, in order: environment name, setting name. *)
Definition VITAL_SETTINGS : list (string * option string) :=
  [ ("ADMIN_EMAIL", None);
    ("FROM_EMAIL", Some "SECURITY_EMAIL_SENDER");
    ("FROM_NAME", None);
    ("SESSION_KEY", Some "SECRET_KEY");
    ("PASSWORD_SALT", Some "SECURITY_PASSWORD_SALT");
    ("SENDGRID_API_KEY", Some "MAIL_SENDGRID_API_KEY");
    ("SERVER_NAME", None);
    ("FIREBASE_CREDENTIALS", None);
    ("DASSET_API_SECRET", None);
    ("DASSET_ACCOUNT_ID", None);
    ("PAYOUT_GROUP_EMAIL", None);
    ("APLYID_BASE_URL", None);
    ("APLYID_API_KEY", None);
    ("APLYID_API_SECRET", None);
    ("APLYID_WEBHOOK_BEARER_TOKEN", None);
    ("B2_ACCOUNT_ID", None);
    ("B2_APPLICATION_KEY", None);
    ("KYC_BUCKET", None) ].

Definition set_all (getenv : Env) (calls : list (string * option string))
    (st : Settings) : Settings :=
  fold_left (fun st '(env_name, setting_name) =>
               set_vital_setting getenv env_name setting_name None st)
            calls st.

(** Lines 144-162 run one after the other. *)
Definition set_vital_settings (getenv : Env) (st : Settings) : Settings :=
  set_all getenv VITAL_SETTINGS st.

(** Whether a call writes the key [k] of [app.config]. *)
Definition writes (k : string) (c : string * option string) : bool :=
  String.eqb k (fst c) || String.eqb k (effective_name (fst c) (snd c)).

(** An environment for running the model: two variables set, one empty. *)
Definition demo_env : Env :=
  fun name =>
    if String.eqb name "SESSION_KEY" then Some "s3cret"
    else if String.eqb name "ADMIN_EMAIL" then Some "ops@example.com"
    else if String.eqb name "FROM_NAME" then Some ""
    else None.

Definition fresh : Settings := mkSettings [("TESTNET", VBool false)] false [].

End AppCore.

(** ** A concrete configuration, for running the model *)

Module Demo.

Definition b58encode (raw : bytes) : string := string_of_list_byte raw.
Definition address : string := "3MerchantAddr".
Definition address_from_public_key (pubkey : bytes) : string :=
  "3P" ++ string_of_list_byte pubkey.
Definition private_key : bytes := [x2a; x2a].
Definition signature_scheme (key msg : bytes) : bytes := (key ++ rev msg)%list.
Definition sign := NotificationSigner.sign private_key signature_scheme.

Definition merchant : bytes := list_byte_of_string address.
Definition stranger : bytes := list_byte_of_string "3SomeoneElse".

Definition inv42 : bytes :=
  [x01; x06; x49; x4e; x56; x2d; x34; x32].

Definition transfer (recipient attachment : bytes) : TransferUtx :=
  mkTransferUtx "t1" [xaa; xbb] [x50; x4b] None 1600000000000 500000 100000
                recipient attachment.

Definition on_event : TransferUtx -> M unit :=
  handle b58encode address address_from_public_key AttachmentCodec.invoice_id_of sign.

Definition loop : list Poll -> State -> Run :=
  main_loop b58encode address address_from_public_key AttachmentCodec.invoice_id_of sign.

Definition program : list Poll -> Run :=
  main b58encode address address_from_public_key AttachmentCodec.invoice_id_of sign.

Definition up : Greenlet := mkGreenlet true.
Definition starting_up : Greenlet := mkGreenlet false.

(** Three greenlets running, a payment arrives during the sleep. *)
Definition healthy : Poll := mkPoll [Transfer (transfer merchant inv42)] [up; up; up].
(** Three greenlets in the group, one not started yet. *)
Definition warming : Poll := mkPoll [] [up; starting_up; up].
(** One greenlet has finished; the two left are both started. *)
Definition crashed : Poll := mkPoll [Transfer (transfer stranger [])] [up; up].
(** Ctrl-C during the sleep, all greenlets fine. *)
Definition interrupted : Poll := mkPoll [SIGINT] [up; up; up].
(** A payment arrives during the sleep after which a greenlet is missing. *)
Definition last_gasp : Poll := mkPoll [Transfer (transfer merchant [])] [up; up].

End Demo.

(** * Properties *)

Local Open Scope list_scope.

(** ** Generic facts about traces and the monad *)

Lemma count_app f (a b : list Call) : count f (a ++ b) = (count f a + count f b)%nat.
Proof. unfold count. now rewrite filter_app, length_app. Qed.

Lemma emitted_of_trace {A} (m : M A) st new :
  trace (exec m st) = trace st ++ new -> emitted m st = new.
Proof.
  intros H. unfold emitted. rewrite H.
  rewrite skipn_app, skipn_all, Nat.sub_diag. reflexivity.
Qed.

Lemma exec_bind {A B} (m : M A) (k : A -> M B) st :
  exec (bind m k) st = exec (k (fst (m st))) (exec m st).
Proof. unfold exec, bind. destruct (m st). reflexivity. Qed.

Section Facts.

Variable b58 : bytes -> string.
Variable addr : string.
Variable afp : bytes -> string.
Variable eid : bytes -> option string.
Variable sgn : string -> Z -> string -> string -> Z -> option string -> bytes * bytes.

Local Abbreviation on_transfer_utx' := (on_transfer_utx b58 addr afp eid sgn).
Local Abbreviation handle' := (handle b58 addr afp eid sgn).
Local Abbreviation gevent_sleep' := (gevent_sleep b58 addr afp eid sgn).
Local Abbreviation deliver' := (deliver b58 addr afp eid sgn).
Local Abbreviation poll' := (poll b58 addr afp eid sgn).
Local Abbreviation main_loop' := (main_loop b58 addr afp eid sgn).
Local Abbreviation main' := (main b58 addr afp eid sgn).
Local Abbreviation after_sleep' := (after_sleep b58 addr afp eid sgn).

Local Abbreviation transfer_record' := (transfer_record b58).
Local Abbreviation notification_calls' := (notification_calls b58 afp eid sgn).

(** *** The watcher callback *)

Lemma handle_other e st :
  b58 (tx_recipient e) <> addr ->
  exec (handle' e) st =
  mkState (keep_running st) (sent_start_email st) (trace st ++ [transfer_record' e]).
Proof.
  intros Hne. apply String.eqb_neq in Hne.
  unfold handle, on_transfer_utx, exec, bind, logger_info, call; simpl.
  rewrite Hne. reflexivity.
Qed.

Lemma handle_match e st :
  b58 (tx_recipient e) = addr ->
  exec (handle' e) st =
  mkState (keep_running st) (sent_start_email st)
          (trace st ++ transfer_record' e :: notification_calls' e).
Proof.
  intros Heq. apply String.eqb_eq in Heq.
  unfold handle, on_transfer_utx, exec, bind, logger_info; simpl.
  rewrite Heq. unfold notification_calls; simpl.
  destruct (sgn _ _ _ _ _ _) as [msg sig']; simpl.
  rewrite <- !app_assoc. reflexivity.
Qed.

Lemma emitted_handle_other e st :
  b58 (tx_recipient e) <> addr ->
  emitted (handle' e) st = [transfer_record' e].
Proof.
  intros Hne. apply emitted_of_trace. now rewrite handle_other.
Qed.

Lemma emitted_handle_match e st :
  b58 (tx_recipient e) = addr ->
  emitted (handle' e) st = transfer_record' e :: notification_calls' e.
Proof.
  intros Heq. apply emitted_of_trace. now rewrite handle_match.
Qed.

Lemma on_transfer_utx_handle wutx txid sig pubkey asset_id timestamp amount fee
      recipient attachment :
  on_transfer_utx' wutx txid sig pubkey asset_id timestamp amount fee recipient attachment
  = handle' (mkTransferUtx txid sig pubkey asset_id timestamp amount fee
                           recipient attachment).
Proof. reflexivity. Qed.

(** C1: an event whose recipient, base58-encoded, differs from the
    configured merchant address makes the callback call neither
    [utils.create_signed_payment_notification] nor [utils.call_webhook]. *)
Theorem other_recipient_no_notification e st :
  b58 (tx_recipient e) <> addr ->
  count is_signing (emitted (handle' e) st) = 0%nat /\
  count is_webhook (emitted (handle' e) st) = 0%nat.
Proof.
  intros Hne. rewrite (emitted_handle_other e st Hne). split; reflexivity.
Qed.

(** C7: for a matching event whose attachment does not decode
    ([utils.extract_invoice_id] returns [None]), the notification is
    still built, with the invoice id absent, and the webhook is called
    exactly once, with what the signer returned. *)
Theorem undecodable_attachment_still_notified e st :
  b58 (tx_recipient e) = addr ->
  eid (tx_attachment e) = None ->
  let from_ := afp (tx_pubkey e) in
  let signed := sgn (tx_txid e) (tx_timestamp e) addr from_ (tx_amount e) None in
  emitted (handle' e) st =
    [ transfer_record' e;
      Call_address_from_public_key (tx_pubkey e);
      Call_extract_invoice_id (tx_attachment e);
      Call_create_signed_payment_notification
        (tx_txid e) (tx_timestamp e) addr from_ (tx_amount e) None;
      Call_webhook (fst signed) (snd signed) ] /\
  count is_webhook (emitted (handle' e) st) = 1%nat.
Proof.
  intros Heq Hnone. cbv zeta.
  rewrite (emitted_handle_match e st Heq).
  unfold notification_calls. rewrite Hnone, Heq. split; reflexivity.
Qed.

(** C8, as the code has it: for an event whose recipient differs from the
    merchant address the callback leaves both flags alone and makes one
    call only, the INFO-level log record of the transfer. *)
Theorem other_recipient_logs_transfer_only e st :
  b58 (tx_recipient e) <> addr ->
  exec (handle' e) st =
    mkState (keep_running st) (sent_start_email st)
            (trace st ++ [Call_log INFO (Msg_transfer (tx_txid e) (b58 (tx_recipient e))
                                                      (tx_amount e) (tx_attachment e))]) /\
  count is_loud_log (emitted (handle' e) st) = 1%nat.
Proof.
  intros Hne. split.
  - now rewrite handle_other.
  - rewrite (emitted_handle_other e st Hne). reflexivity.
Qed.

(** C10: for a matching event the [sig] argument received from the feed
    has no influence on what the callback does, and the one webhook call
    carries the message and signature returned by the signer. *)
Theorem transaction_signature_discarded
    wutx txid sig1 sig2 pubkey asset_id timestamp amount fee recipient attachment st :
  b58 recipient = addr ->
  let signed := sgn txid timestamp addr (afp pubkey) amount (eid attachment) in
  on_transfer_utx' wutx txid sig1 pubkey asset_id timestamp amount fee recipient attachment st
  = on_transfer_utx' wutx txid sig2 pubkey asset_id timestamp amount fee recipient attachment st
  /\
  filter is_webhook
    (emitted (on_transfer_utx' wutx txid sig1 pubkey asset_id timestamp amount fee
                               recipient attachment) st)
  = [Call_webhook (fst signed) (snd signed)].
Proof.
  intros Heq. cbv zeta. split.
  - reflexivity.
  - rewrite on_transfer_utx_handle, emitted_handle_match by exact Heq.
    unfold notification_calls, transfer_record. simpl. rewrite Heq. reflexivity.
Qed.

(** *** What arrives while the loop sleeps *)

Lemma quiet_app a b : quiet a -> quiet b -> quiet (a ++ b).
Proof. unfold quiet. intros Ha Hb. now rewrite forallb_app, Ha, Hb. Qed.

Lemma count_quiet f new :
  (forall c, f c = true -> supervisor_call c = true) ->
  quiet new -> count f new = 0%nat.
Proof.
  intros Hf. unfold quiet, count. induction new as [|c new IH]; simpl; intros Hq.
  - reflexivity.
  - apply andb_prop in Hq as [Hc Hq].
    destruct (f c) eqn:Hfc.
    + apply Hf in Hfc. rewrite Hfc in Hc. discriminate.
    + now apply IH.
Qed.

Lemma deliver_trace a st :
  exists new, trace (exec (deliver' a) st) = trace st ++ new /\ quiet new.
Proof.
  destruct a as [|e]; simpl.
  - eexists. split; reflexivity.
  - destruct (String.eqb_spec (b58 (tx_recipient e)) addr) as [Heq|Hne].
    + rewrite (handle_match e st Heq). eexists. split; reflexivity.
    + rewrite (handle_other e st Hne). eexists. split; reflexivity.
Qed.

Lemma deliver_flags a st :
  sent_start_email (exec (deliver' a) st) = sent_start_email st /\
  keep_running (exec (deliver' a) st) = keep_running st && negb (is_sigint a).
Proof.
  destruct a as [|e]; simpl.
  - split; [reflexivity | now rewrite andb_false_r].
  - rewrite andb_true_r.
    destruct (String.eqb_spec (b58 (tx_recipient e)) addr) as [Heq|Hne].
    + rewrite (handle_match e st Heq). split; reflexivity.
    + rewrite (handle_other e st Hne). split; reflexivity.
Qed.

Lemma sleep_trace arrived : forall st,
  exists new, trace (exec (gevent_sleep' arrived) st) = trace st ++ new /\ quiet new.
Proof.
  induction arrived as [|a rest IH]; intros st; simpl.
  - exists []. split; [now rewrite app_nil_r | reflexivity].
  - rewrite exec_bind.
    destruct (deliver_trace a st) as (n1 & H1 & Q1).
    destruct (IH (exec (deliver' a) st)) as (n2 & H2 & Q2).
    exists (n1 ++ n2). split.
    + now rewrite H2, H1, app_assoc.
    + now apply quiet_app.
Qed.

Lemma sleep_flags arrived : forall st,
  sent_start_email (exec (gevent_sleep' arrived) st) = sent_start_email st /\
  keep_running (exec (gevent_sleep' arrived) st)
  = keep_running st && negb (existsb is_sigint arrived).
Proof.
  induction arrived as [|a rest IH]; intros st; simpl.
  - split; [reflexivity | now rewrite andb_true_r].
  - rewrite exec_bind.
    destruct (deliver_flags a st) as [S1 K1].
    destruct (IH (exec (deliver' a) st)) as [S2 K2].
    split.
    + now rewrite S2, S1.
    + rewrite K2, K1, negb_orb. now rewrite andb_assoc.
Qed.

Lemma sleep_count f arrived st :
  (forall c, f c = true -> supervisor_call c = true) ->
  count f (trace (exec (gevent_sleep' arrived) st)) = count f (trace st).
Proof.
  intros Hf. destruct (sleep_trace arrived st) as (new & Htr & Hq).
  rewrite Htr, count_app, (count_quiet f new Hf Hq). lia.
Qed.

(** *** One poll *)

Lemma poll_dead p st :
  (List.length (group p) < 3)%nat ->
  poll' p st =
  (Break, mkState (keep_running (after_sleep' p st)) (sent_start_email (after_sleep' p st))
                  (trace (after_sleep' p st) ++ death_calls)).
Proof.
  intros Hlt. apply Nat.ltb_lt in Hlt.
  unfold poll, after_sleep, exec, bind.
  destruct (gevent_sleep' (arrivals p) st) as [u s1]; simpl.
  rewrite Hlt. simpl. rewrite <- app_assoc. reflexivity.
Qed.

Lemma poll_full p st :
  (3 <= List.length (group p))%nat ->
  poll' p st =
  (Continue,
   if negb (sent_start_email (after_sleep' p st)) && all_started (group p)
   then mkState (keep_running (after_sleep' p st)) true
                (trace (after_sleep' p st) ++ started_calls)
   else after_sleep' p st).
Proof.
  intros Hge. apply Nat.ltb_ge in Hge.
  unfold poll, after_sleep, exec, bind.
  destruct (gevent_sleep' (arrivals p) st) as [u s1]; simpl.
  rewrite Hge. unfold get_sent_start_email.
  destruct (sent_start_email s1); simpl; [reflexivity|].
  destruct (all_started (group p)); simpl; [|reflexivity].
  rewrite <- app_assoc. reflexivity.
Qed.

Lemma exec_shutdown st :
  exec shutdown st =
  mkState (keep_running st) (sent_start_email st) (trace st ++ shutdown_calls).
Proof.
  unfold shutdown, exec, bind, logger_info, call; simpl.
  rewrite <- !app_assoc. reflexivity.
Qed.

Lemma poll_continue p st st' :
  poll' p st = (Continue, st') ->
  (3 <= List.length (group p))%nat /\
  st' = if negb (sent_start_email (after_sleep' p st)) && all_started (group p)
        then mkState (keep_running (after_sleep' p st)) true
                     (trace (after_sleep' p st) ++ started_calls)
        else after_sleep' p st.
Proof.
  intros Hp. destruct (Nat.ltb_spec (List.length (group p)) 3) as [Hlt|Hge].
  - rewrite (poll_dead p st Hlt) in Hp. discriminate.
  - rewrite (poll_full p st Hge) in Hp. split; [exact Hge | congruence].
Qed.

Lemma poll_keep_running p st fl st' :
  poll' p st = (fl, st') ->
  keep_running st' = keep_running st && negb (existsb is_sigint (arrivals p)).
Proof.
  intros Hp. destruct (sleep_flags (arrivals p) st) as [_ HK].
  destruct (Nat.ltb_spec (List.length (group p)) 3) as [Hlt|Hge].
  - rewrite (poll_dead p st Hlt) in Hp. inversion Hp; subst. exact HK.
  - rewrite (poll_full p st Hge) in Hp. inversion Hp; subst.
    destruct (negb _ && _); exact HK.
Qed.

Lemma poll_count_death p st st' :
  poll' p st = (Continue, st') ->
  count is_death (trace st') = count is_death (trace st).
Proof.
  intros Hp. apply poll_continue in Hp as [_ ->].
  assert (Hs : count is_death (trace (after_sleep' p st)) = count is_death (trace st)).
  { apply sleep_count. intros c Hc. unfold supervisor_call. now rewrite Hc. }
  destruct (negb _ && _); cbn [trace]; [|exact Hs].
  rewrite count_app, Hs. change (count is_death started_calls) with 0%nat. lia.
Qed.

Lemma poll_alive_matches p st fl st' :
  poll' p st = (fl, st') -> alive_matches_flag st -> alive_matches_flag st'.
Proof.
  unfold alive_matches_flag. intros Hp Hinv.
  assert (Hs : count is_alive (trace (after_sleep' p st)) = count is_alive (trace st)).
  { apply sleep_count. intros c Hc. unfold supervisor_call.
    rewrite Hc. now rewrite orb_true_r. }
  destruct (sleep_flags (arrivals p) st) as [HS _].
  fold (after_sleep' p st) in HS.
  rewrite <- HS, <- Hs in Hinv.
  destruct (Nat.ltb_spec (List.length (group p)) 3) as [Hlt|Hge].
  - rewrite (poll_dead p st Hlt) in Hp. inversion Hp; subst; cbn [trace sent_start_email].
    rewrite count_app, Hinv. change (count is_alive death_calls) with 0%nat.
    now rewrite Nat.add_0_r.
  - rewrite (poll_full p st Hge) in Hp. inversion Hp; subst.
    destruct (sent_start_email (after_sleep' p st)) eqn:Hsent; cbn [negb andb].
    + now rewrite Hsent.
    + destruct (all_started (group p)); cbn [trace sent_start_email].
      * rewrite count_app, Hinv. reflexivity.
      * now rewrite Hsent.
Qed.

Lemma poll_sent_mono p st fl st' :
  poll' p st = (fl, st') -> sent_start_email st = true -> sent_start_email st' = true.
Proof.
  intros Hp Hsent. destruct (sleep_flags (arrivals p) st) as [HS _].
  fold (after_sleep' p st) in HS.
  destruct (Nat.ltb_spec (List.length (group p)) 3) as [Hlt|Hge].
  - rewrite (poll_dead p st Hlt) in Hp. inversion Hp; subst; simpl. congruence.
  - rewrite (poll_full p st Hge) in Hp. inversion Hp; subst.
    destruct (negb _ && _); simpl; congruence.
Qed.

(** *** The loop *)

Lemma main_loop_stopped polls st :
  keep_running st = false -> main_loop' polls st = Exited st.
Proof. intros H. destruct polls; simpl; now rewrite H. Qed.

Lemma main_loop_polling pre : forall st st1,
  main_loop' pre st = Polling st1 ->
  keep_running st1 = true /\
  forall rest, main_loop' (pre ++ rest) st = main_loop' rest st1.
Proof.
  induction pre as [|p pre IH]; intros st st1; simpl.
  - destruct (keep_running st) eqn:K; intros H; inversion H; subst.
    split; [exact K | reflexivity].
  - destruct (keep_running st) eqn:K; [|discriminate].
    destruct (poll' p st) as [[|] st'] eqn:P; [|discriminate].
    intros H. destruct (IH _ _ H) as [K1 Happ]. split; [exact K1 | exact Happ].
Qed.

Lemma polling_no_death pre : forall st st1,
  main_loop' pre st = Polling st1 ->
  count is_death (trace st1) = count is_death (trace st).
Proof.
  induction pre as [|p pre IH]; intros st st1; simpl.
  - destruct (keep_running st); intros H; inversion H; reflexivity.
  - destruct (keep_running st); [|discriminate].
    destruct (poll' p st) as [[|] st'] eqn:P; [|discriminate].
    intros H. rewrite (IH _ _ H). exact (poll_count_death _ _ _ P).
Qed.

Lemma main_loop_alive_matches polls : forall st,
  alive_matches_flag st -> alive_matches_flag (run_state (main_loop' polls st)).
Proof.
  induction polls as [|p polls IH]; intros st Hinv; simpl.
  - destruct (keep_running st); exact Hinv.
  - destruct (keep_running st); [|exact Hinv].
    destruct (poll' p st) as [[|] st'] eqn:P.
    + apply IH. exact (poll_alive_matches _ _ _ _ P Hinv).
    + exact (poll_alive_matches _ _ _ _ P Hinv).
Qed.

Lemma main_loop_sent_mono polls : forall st,
  sent_start_email st = true ->
  sent_start_email (run_state (main_loop' polls st)) = true.
Proof.
  induction polls as [|p polls IH]; intros st Hs; simpl.
  - destruct (keep_running st); exact Hs.
  - destruct (keep_running st); [|exact Hs].
    destruct (poll' p st) as [[|] st'] eqn:P.
    + apply IH. exact (poll_sent_mono _ _ _ _ P Hs).
    + exact (poll_sent_mono _ _ _ _ P Hs).
Qed.

Lemma main_alive polls :
  count is_alive (trace (run_state (main' polls)))
  = count is_alive (trace (run_state (main_loop' polls booted))).
Proof.
  unfold main. destruct (main_loop' polls booted); cbn [run_state]; [|reflexivity].
  rewrite exec_shutdown; cbn [trace]. rewrite count_app.
  change (count is_alive shutdown_calls) with 0%nat. now rewrite Nat.add_0_r.
Qed.

Lemma booted_alive_matches : alive_matches_flag booted.
Proof. reflexivity. Qed.

(** The run once a poll finds fewer than three greenlets. *)
Lemma main_dead pre p post st1 :
  main_loop' pre booted = Polling st1 ->
  (List.length (group p) < 3)%nat ->
  main' (pre ++ p :: post) =
  Exited (mkState (keep_running (after_sleep' p st1))
                  (sent_start_email (after_sleep' p st1))
                  (trace (after_sleep' p st1) ++ death_calls ++ shutdown_calls)).
Proof.
  intros Hpre Hlt. destruct (main_loop_polling _ _ _ Hpre) as [K Happ].
  unfold main. rewrite Happ. cbn [main_loop]. rewrite K, (poll_dead p st1 Hlt).
  rewrite exec_shutdown; cbn [trace keep_running sent_start_email].
  now rewrite <- app_assoc.
Qed.

(** The death mail of such a run is its only one. *)
Lemma dead_worker_facts pre p post st1 :
  main_loop' pre booted = Polling st1 ->
  (List.length (group p) < 3)%nat ->
  main' (pre ++ p :: post) =
    Exited (mkState (keep_running (after_sleep' p st1))
                    (sent_start_email (after_sleep' p st1))
                    (trace (after_sleep' p st1) ++ death_calls ++ shutdown_calls)) /\
  count is_death (trace (after_sleep' p st1) ++ death_calls ++ shutdown_calls) = 1%nat.
Proof.
  intros Hpre Hlt. split; [exact (main_dead pre p post st1 Hpre Hlt)|].
  rewrite count_app.
  assert (Hs : count is_death (trace (after_sleep' p st1)) = 0%nat).
  { unfold after_sleep. rewrite sleep_count.
    - now rewrite (polling_no_death _ _ _ Hpre).
    - intros c Hc. unfold supervisor_call. now rewrite Hc. }
  rewrite Hs. reflexivity.
Qed.

(** *** The supervisor *)

(** C2: when the loop, still running after the polls [pre], meets a poll
    at which [len(group)] is below three, the program sends the death
    mail, leaves the loop without looking at any later poll, and calls
    [stop()] on both tasks; the death mail is the only one in the whole
    run. *)
Theorem dead_worker_alert_then_shutdown pre p post st1 :
  main_loop' pre booted = Polling st1 ->
  (List.length (group p) < 3)%nat ->
  exists stf,
    main' (pre ++ p :: post) = Exited stf /\
    trace stf = trace (after_sleep' p st1) ++
                [ Call_log ERROR (Msg_text DEAD_MSG);
                  Call_email_death DEAD_MSG;
                  Call_log INFO (Msg_text "stopping greenlets");
                  Call_stop WavesUTX;
                  Call_stop ZapRPC ] /\
    count is_death (trace stf) = 1%nat /\
    (forall t : Task, In (Call_stop t) (trace stf)).
Proof.
  intros Hpre Hlt. eexists. split; [exact (main_dead pre p post st1 Hpre Hlt)|].
  cbn [trace]. split; [reflexivity|]. split.
  - rewrite count_app.
    assert (Hs : count is_death (trace (after_sleep' p st1)) = 0%nat).
    { unfold after_sleep. rewrite sleep_count.
      - now rewrite (polling_no_death _ _ _ Hpre).
      - intros c Hc. unfold supervisor_call. now rewrite Hc. }
    rewrite Hs. reflexivity.
  - intros t. apply in_or_app. right. destruct t; simpl; auto 6.
Qed.

(** C5: in every run the "started" mail is sent at most once, and it has
    been sent exactly when the flag [sent_start_email] is set.  It is sent
    exactly once in every run that reaches, with the loop still running, a
    poll at which at least three greenlets are present and all started,
    whatever came before and whatever follows; in particular when every
    poll of a non-empty run is such a poll. *)
Theorem healthy_alert_once polls :
  (count is_alive (trace (run_state (main' polls))) <= 1)%nat /\
  count is_alive (trace (run_state (main' polls)))
  = (if sent_start_email (run_state (main' polls)) then 1%nat else 0%nat) /\
  (forall pre p post st1,
     polls = pre ++ p :: post ->
     main_loop' pre booted = Polling st1 ->
     (3 <= List.length (group p))%nat ->
     all_started (group p) = true ->
     count is_alive (trace (run_state (main' polls))) = 1%nat) /\
  (polls <> [] ->
   Forall (fun p => (3 <= List.length (group p))%nat /\ all_started (group p) = true)
          polls ->
   count is_alive (trace (run_state (main' polls))) = 1%nat).
Proof.
  assert (Hflag : sent_start_email (run_state (main' polls))
                  = sent_start_email (run_state (main_loop' polls booted))).
  { unfold main. destruct (main_loop' polls booted); cbn [run_state]; [|reflexivity].
    now rewrite exec_shutdown. }
  rewrite Hflag, main_alive.
  pose proof (main_loop_alive_matches polls booted booted_alive_matches) as Hinv.
  unfold alive_matches_flag in Hinv.
  assert (Hreach : forall pre p post st1,
             polls = pre ++ p :: post ->
             main_loop' pre booted = Polling st1 ->
             (3 <= List.length (group p))%nat ->
             all_started (group p) = true ->
             sent_start_email (run_state (main_loop' polls booted)) = true).
  { intros pre p post st1 -> Hpre Hge Hstarted.
    destruct (main_loop_polling _ _ _ Hpre) as [K Happ]. rewrite Happ.
    cbn [main_loop]. rewrite K, (poll_full p st1 Hge), Hstarted, andb_true_r.
    apply main_loop_sent_mono.
    destruct (sent_start_email (after_sleep' p st1)) eqn:E; cbn [negb];
      [exact E | reflexivity]. }
  split; [|split; [|split]].
  - rewrite Hinv.
    destruct (sent_start_email (run_state (main_loop' polls booted))); auto.
  - exact Hinv.
  - intros pre p post st1 Hsplit Hpre Hge Hstarted.
    now rewrite Hinv, (Hreach pre p post st1 Hsplit Hpre Hge Hstarted).
  - intros Hne Hall.
    destruct polls as [|p rest]; [contradiction|].
    inversion Hall as [|? ? [Hge Hstarted] _]; subst.
    now rewrite Hinv, (Hreach [] p rest booted eq_refl eq_refl Hge Hstarted).
Qed.

(** C9: when the loop, still running and with the "started" mail not yet
    sent, meets a poll at which [len(group)] is below three, the run
    contains no "started" mail at all, whatever the later polls hold:
    the death mail goes out and the program shuts down. *)
Theorem death_check_precedes_start_check pre p post st1 :
  main_loop' pre booted = Polling st1 ->
  sent_start_email st1 = false ->
  (List.length (group p) < 3)%nat ->
  exists stf,
    main' (pre ++ p :: post) = Exited stf /\
    count is_alive (trace stf) = 0%nat /\
    count is_death (trace stf) = 1%nat /\
    trace stf = trace (after_sleep' p st1) ++ death_calls ++ shutdown_calls.
Proof.
  intros Hpre Hsent Hlt.
  destruct (dead_worker_facts pre p post st1 Hpre Hlt) as (Hmain & Hdeath).
  eexists. split; [exact Hmain|]. cbn [trace] in *. split; [|split; [exact Hdeath | reflexivity]].
  rewrite count_app. change (count is_alive (death_calls ++ shutdown_calls)) with 0%nat.
  rewrite Nat.add_0_r. unfold after_sleep. rewrite sleep_count.
  - pose proof (main_loop_alive_matches pre booted booted_alive_matches) as Hinv.
    rewrite Hpre in Hinv. unfold alive_matches_flag in Hinv. cbn [run_state] in Hinv.
    now rewrite Hsent in Hinv.
  - intros c Hc. unfold supervisor_call. rewrite Hc. now rewrite orb_true_r.
Qed.

Lemma sigint_seen arrived : In SIGINT arrived -> existsb is_sigint arrived = true.
Proof. intros H. apply existsb_exists. exists SIGINT. split; [exact H | reflexivity]. Qed.

(** C6, as the code has it: the handler logs one warning and clears
    [keep_running], nothing more; a signal delivered during the sleep of
    a poll lets that iteration finish, no later poll is looked at, and
    the program calls [stop()] on the watcher and on the RPC service. *)
Theorem sigint_flag_then_shutdown :
  (forall st,
     exec sigint_handler st =
     mkState false (sent_start_email st)
             (trace st ++ [Call_log WARNING
                             (Msg_text "SIGINT caught, attempting to exit gracefully")])) /\
  (forall pre p post st1,
     main_loop' pre booted = Polling st1 ->
     In SIGINT (arrivals p) ->
     exists st2,
       st2 = snd (poll' p st1) /\
       keep_running st2 = false /\
       main' (pre ++ p :: post) = Exited (exec shutdown st2) /\
       trace (exec shutdown st2) =
         trace st2 ++ [ Call_log INFO (Msg_text "stopping greenlets");
                        Call_stop WavesUTX;
                        Call_stop ZapRPC ]).
Proof.
  split; [reflexivity|].
  intros pre p post st1 Hpre Hsig.
  destruct (main_loop_polling _ _ _ Hpre) as [K Happ].
  destruct (poll' p st1) as [fl st2] eqn:P.
  assert (K2 : keep_running st2 = false).
  { rewrite (poll_keep_running _ _ _ _ P), (sigint_seen _ Hsig). apply andb_false_r. }
  exists st2. split; [reflexivity|]. split; [exact K2|]. split.
  - unfold main. rewrite Happ. cbn [main_loop]. rewrite K, P.
    destruct fl; [|reflexivity]. now rewrite (main_loop_stopped post st2 K2).
  - now rewrite exec_shutdown.
Qed.

(** *** Further facts about the watcher *)

Local Abbreviation is_match' := (is_match b58 addr).
Local Abbreviation webhook_of' := (webhook_of b58 afp eid sgn).
Local Abbreviation expected_webhooks' := (expected_webhooks b58 addr afp eid sgn).
Local Abbreviation deliver_calls' := (deliver_calls b58 addr afp eid sgn).

Lemma exec_deliver a st :
  exec (deliver' a) st =
  mkState (keep_running st && negb (is_sigint a)) (sent_start_email st)
          (trace st ++ deliver_calls' a).
Proof.
  destruct a as [|e]; simpl.
  - now rewrite andb_false_r.
  - rewrite andb_true_r. unfold is_match.
    destruct (String.eqb_spec (b58 (tx_recipient e)) addr) as [Heq|Hne].
    + now rewrite (handle_match e st Heq).
    + now rewrite (handle_other e st Hne).
Qed.

Lemma exec_sleep arrived : forall st,
  exec (gevent_sleep' arrived) st =
  mkState (keep_running st && negb (existsb is_sigint arrived)) (sent_start_email st)
          (trace st ++ flat_map deliver_calls' arrived).
Proof.
  induction arrived as [|a rest IH]; intros st.
  - destruct st; simpl. now rewrite andb_true_r, app_nil_r.
  - cbn [gevent_sleep]. rewrite exec_bind, IH, exec_deliver.
    cbn [keep_running sent_start_email trace flat_map existsb].
    now rewrite negb_orb, andb_assoc, <- app_assoc.
Qed.

Lemma filter_deliver_webhook a :
  filter is_webhook (deliver_calls' a) = expected_webhooks' [a].
Proof.
  destruct a as [|e]; simpl; [reflexivity|].
  destruct (is_match' e); reflexivity.
Qed.

Lemma filter_sleep_webhook arrived :
  filter is_webhook (flat_map deliver_calls' arrived) = expected_webhooks' arrived.
Proof.
  induction arrived as [|a rest IH]; [reflexivity|].
  cbn [flat_map]. rewrite filter_app, IH, filter_deliver_webhook.
  unfold expected_webhooks. cbn [flat_map]. now rewrite app_nil_r.
Qed.

Lemma deliver_calls_inner a :
  forallb (fun c => negb (is_death c || is_alive c || is_boundary c)) (deliver_calls' a)
  = true.
Proof.
  destruct a as [|e]; simpl; [reflexivity|].
  destruct (is_match' e); reflexivity.
Qed.

Lemma sleep_calls_inner arrived :
  forallb (fun c => negb (is_death c || is_alive c || is_boundary c))
          (flat_map deliver_calls' arrived) = true.
Proof.
  induction arrived as [|a rest IH]; [reflexivity|].
  cbn [flat_map]. now rewrite forallb_app, deliver_calls_inner, IH.
Qed.

(** X1: a transfer to the merchant address makes the callback log the
    transfer, derive the sender, decode the attachment, sign with the
    configured address as recipient, and call the webhook once with what
    the signer returned, in this order and nothing else. *)
Theorem matching_event_notifies_once e st :
  b58 (tx_recipient e) = addr ->
  let from_ := afp (tx_pubkey e) in
  let invoice_id := eid (tx_attachment e) in
  let signed := sgn (tx_txid e) (tx_timestamp e) addr from_ (tx_amount e) invoice_id in
  exec (handle' e) st =
  mkState (keep_running st) (sent_start_email st)
    (trace st ++
     [ Call_log INFO (Msg_transfer (tx_txid e) addr (tx_amount e) (tx_attachment e));
       Call_address_from_public_key (tx_pubkey e);
       Call_extract_invoice_id (tx_attachment e);
       Call_create_signed_payment_notification
         (tx_txid e) (tx_timestamp e) addr from_ (tx_amount e) invoice_id;
       Call_webhook (fst signed) (snd signed) ]).
Proof.
  intros Heq. cbv zeta. rewrite (handle_match e st Heq).
  unfold notification_calls, transfer_record. now rewrite Heq.
Qed.

(** X2: during one sleep the webhook is called once for every transfer
    addressed to the merchant, in arrival order; a transfer delivered
    twice is notified twice, and signals or other transfers add no call. *)
Theorem sleep_webhooks_follow_arrivals arrived st :
  filter is_webhook (emitted (gevent_sleep' arrived) st) = expected_webhooks' arrived.
Proof.
  rewrite (emitted_of_trace _ st (flat_map deliver_calls' arrived)).
  - apply filter_sleep_webhook.
  - now rewrite exec_sleep.
Qed.

(** *** Further facts about the loop *)

Lemma after_sleep_exec p st :
  after_sleep' p st =
  mkState (keep_running st && negb (existsb is_sigint (arrivals p))) (sent_start_email st)
          (trace st ++ flat_map deliver_calls' (arrivals p)).
Proof. unfold after_sleep. apply exec_sleep. Qed.

Lemma poll_trace p st fl st' :
  poll' p st = (fl, st') ->
  exists extra,
    trace st' = trace st ++ flat_map deliver_calls' (arrivals p) ++ extra /\
    (extra = [] \/ (fl = Break /\ extra = death_calls) \/
     (fl = Continue /\ extra = started_calls)).
Proof.
  intros Hp. destruct (Nat.ltb_spec (List.length (group p)) 3) as [Hlt|Hge].
  - rewrite (poll_dead p st Hlt) in Hp. inversion Hp; subst. exists death_calls.
    cbn [trace]. rewrite after_sleep_exec. cbn [trace]. rewrite <- app_assoc. auto.
  - rewrite (poll_full p st Hge) in Hp. inversion Hp; subst.
    destruct (negb _ && _).
    + exists started_calls. cbn [trace]. rewrite after_sleep_exec. cbn [trace].
      rewrite <- app_assoc. auto.
    + exists []. rewrite after_sleep_exec. cbn [trace]. rewrite app_nil_r. auto.
Qed.

Lemma poll_webhooks p st fl st' :
  poll' p st = (fl, st') ->
  filter is_webhook (trace st') =
  filter is_webhook (trace st) ++ expected_webhooks' (arrivals p).
Proof.
  intros Hp. destruct (poll_trace _ _ _ _ Hp) as (extra & -> & Hextra).
  rewrite !filter_app, filter_sleep_webhook.
  destruct Hextra as [-> | [[_ ->] | [_ ->]]]; simpl; now rewrite app_nil_r.
Qed.

Lemma polling_webhooks pre : forall st st1,
  main_loop' pre st = Polling st1 ->
  filter is_webhook (trace st1) =
  filter is_webhook (trace st) ++ flat_map (fun p => expected_webhooks' (arrivals p)) pre.
Proof.
  induction pre as [|p pre IH]; intros st st1; simpl.
  - destruct (keep_running st); intros H; inversion H; subst. now rewrite app_nil_r.
  - destruct (keep_running st); [|discriminate].
    destruct (poll' p st) as [[|] st'] eqn:P; [|discriminate].
    intros H. rewrite (IH _ _ H), (poll_webhooks _ _ _ _ P). now rewrite <- app_assoc.
Qed.

(** X3: as long as the loop has not been left, the webhook calls of the
    whole run are exactly the transfers to the merchant that arrived, poll
    after poll and in arrival order: none is lost, none is merged. *)
Theorem run_webhooks_follow_arrivals polls st :
  main' polls = Polling st ->
  filter is_webhook (trace st) =
  flat_map (fun p => expected_webhooks' (arrivals p)) polls.
Proof.
  unfold main. destruct (main_loop' polls booted) as [st'|st'] eqn:Hrun; [discriminate|].
  intros H; inversion H; subst.
  now rewrite (polling_webhooks _ _ _ Hrun).
Qed.

(** X4: transfers that arrive during the sleep of the poll that finds a
    greenlet missing are handled in full (logged, signed, sent to the
    webhook) before the death alert; after the alert come only the
    shutdown calls.  The trace does not depend on the later polls: nothing
    they would have delivered is logged, signed or sent. *)
Theorem fatal_poll_still_notifies pre p post st1 :
  main_loop' pre booted = Polling st1 ->
  (List.length (group p) < 3)%nat ->
  exists stf,
    main' (pre ++ p :: post) = Exited stf /\
    trace stf =
      trace st1 ++ flat_map deliver_calls' (arrivals p) ++
      [ Call_log ERROR (Msg_text DEAD_MSG);
        Call_email_death DEAD_MSG;
        Call_log INFO (Msg_text "stopping greenlets");
        Call_stop WavesUTX;
        Call_stop ZapRPC ] /\
    filter is_webhook (flat_map deliver_calls' (arrivals p))
    = expected_webhooks' (arrivals p) /\
    filter is_webhook (trace stf) =
    flat_map (fun q => expected_webhooks' (arrivals q)) (pre ++ [p]).
Proof.
  intros Hpre Hlt. eexists. split; [exact (main_dead pre p post st1 Hpre Hlt)|].
  cbn [trace]. rewrite after_sleep_exec. cbn [trace]. split; [|split].
  - now rewrite <- app_assoc.
  - apply filter_sleep_webhook.
  - rewrite !filter_app, filter_sleep_webhook, (polling_webhooks _ _ _ Hpre).
    rewrite flat_map_app. simpl. now rewrite !app_nil_r.
Qed.

Lemma main_loop_exited polls : forall st,
  keep_running st = true ->
  exited (main_loop' polls st) = existsb stops_loop polls.
Proof.
  induction polls as [|p polls IH]; intros st K; cbn [main_loop existsb]; rewrite K.
  - reflexivity.
  - unfold stops_loop at 1.
    destruct (Nat.ltb_spec (List.length (group p)) 3) as [Hlt|Hge].
    + now rewrite (poll_dead p st Hlt).
    + destruct (poll' p st) as [fl st'] eqn:P.
      pose proof (poll_keep_running _ _ _ _ P) as K'. rewrite K in K'.
      rewrite (poll_full p st Hge) in P.
      assert (Hfl : fl = Continue) by congruence. subst fl. clear P.
      cbn [andb] in K'. cbn [orb].
      destruct (existsb is_sigint (arrivals p)); cbn [negb] in K'.
      * now rewrite (main_loop_stopped polls st' K').
      * now apply IH.
Qed.

(** X5: the program leaves its loop exactly when some poll found fewer
    than three greenlets or had the interrupt signal delivered during its
    sleep; otherwise it is still polling, however many polls go by. *)
Theorem exit_iff_dead_or_interrupted polls :
  exited (main' polls) = existsb stops_loop polls.
Proof.
  rewrite <- (main_loop_exited polls booted eq_refl).
  unfold main. now destruct (main_loop' polls booted).
Qed.

Lemma main_loop_inner polls : forall st,
  exists new,
    trace (run_state (main_loop' polls st)) = trace st ++ new /\
    forallb (fun c => negb (is_boundary c)) new = true.
Proof.
  induction polls as [|p polls IH]; intros st; cbn [main_loop].
  - exists []. rewrite app_nil_r. now destruct (keep_running st).
  - destruct (keep_running st); [|exists []; now rewrite app_nil_r].
    destruct (poll' p st) as [fl st'] eqn:P.
    destruct (poll_trace _ _ _ _ P) as (extra & Htr & Hextra).
    assert (Hq : forallb (fun c => negb (is_boundary c))
                         (flat_map deliver_calls' (arrivals p) ++ extra) = true).
    { rewrite forallb_app. apply andb_true_intro. split.
      - pose proof (sleep_calls_inner (arrivals p)) as Hs.
        rewrite forallb_forall in Hs. apply forallb_forall. intros c Hc.
        specialize (Hs c Hc). destruct (is_boundary c); [|reflexivity].
        now rewrite !orb_true_r in Hs.
      - destruct Hextra as [-> | [[_ ->] | [_ ->]]]; reflexivity. }
    destruct fl.
    + destruct (IH st') as (new & Hnew & Hqn).
      exists ((flat_map deliver_calls' (arrivals p) ++ extra) ++ new). split.
      * now rewrite Hnew, Htr, <- !app_assoc.
      * now rewrite forallb_app, Hq, Hqn.
    + exists (flat_map deliver_calls' (arrivals p) ++ extra). split; [exact Htr | exact Hq].
Qed.

Lemma count_inner (f : Call -> bool) new :
  (forall c, f c = true -> is_boundary c = true) ->
  forallb (fun c => negb (is_boundary c)) new = true ->
  count f new = 0%nat.
Proof.
  intros Hf Hq. unfold count. induction new as [|c new IH]; [reflexivity|].
  cbn [forallb] in Hq. apply andb_prop in Hq as [Hc Hq]. cbn [filter].
  destruct (f c) eqn:Hfc.
  - apply Hf in Hfc. rewrite Hfc in Hc. discriminate.
  - now apply IH.
Qed.

(** X6: [stop()] is called on no task while the loop runs; once the loop
    is left the run ends with the watcher being stopped and then the RPC
    service, each exactly once. *)
Theorem stop_only_at_exit polls :
  match main' polls with
  | Polling st => count is_stop (trace st) = 0%nat
  | Exited st =>
      exists before,
        trace st = before ++ [ Call_log INFO (Msg_text "stopping greenlets");
                               Call_stop WavesUTX;
                               Call_stop ZapRPC ] /\
        count is_stop before = 0%nat
  end.
Proof.
  unfold main. destruct (main_loop_inner polls booted) as (new & Htr & Hq).
  assert (Hstop : count is_stop (trace booted ++ new) = 0%nat).
  { rewrite count_app, (count_inner is_stop new); [reflexivity| |exact Hq].
    intros c Hc. unfold is_boundary. rewrite Hc. apply orb_true_r. }
  destruct (main_loop' polls booted) as [st|st]; cbn [run_state] in Htr.
  - exists (trace st). rewrite exec_shutdown. cbn [trace]. split; [reflexivity|].
    now rewrite Htr.
  - now rewrite Htr.
Qed.

(** X7: every run begins by logging, starting the RPC service, starting
    the watcher and logging again, in this order, and never starts a task
    a second time. *)
Theorem tasks_started_once_up_front polls :
  exists rest,
    trace (run_state (main' polls)) =
      [ Call_log INFO (Msg_text "starting greenlets");
        Call_start ZapRPC;
        Call_start WavesUTX;
        Call_log INFO (Msg_text "main loop") ] ++ rest /\
    count is_start rest = 0%nat.
Proof.
  unfold main. destruct (main_loop_inner polls booted) as (new & Htr & Hq).
  assert (Hnew : count is_start new = 0%nat).
  { apply count_inner; [|exact Hq]. intros c Hc. unfold is_boundary. now rewrite Hc. }
  change (trace booted) with startup_calls in Htr.
  destruct (main_loop' polls booted) as [st|st]; cbn [run_state] in *.
  - exists (new ++ shutdown_calls). rewrite exec_shutdown. cbn [trace]. rewrite Htr. split.
    + now rewrite <- app_assoc.
    + rewrite count_app, Hnew. reflexivity.
  - exists new. split; [exact Htr | exact Hnew].
Qed.

Lemma main_loop_death_count polls : forall st,
  (count is_death (trace (run_state (main_loop' polls st)))
   <= count is_death (trace st) + 1)%nat /\
  (Forall (fun p => (3 <= List.length (group p))%nat) polls ->
   count is_death (trace (run_state (main_loop' polls st))) = count is_death (trace st)).
Proof.
  induction polls as [|p polls IH]; intros st; cbn [main_loop].
  - destruct (keep_running st); cbn [run_state]; split; intros; lia.
  - destruct (keep_running st); [|cbn [run_state]; split; intros; lia].
    destruct (Nat.ltb_spec (List.length (group p)) 3) as [Hlt|Hge].
    + rewrite (poll_dead p st Hlt). cbn [run_state trace]. split.
      * rewrite count_app. unfold after_sleep. rewrite sleep_count.
        -- change (count is_death death_calls) with 1%nat. lia.
        -- intros c Hc. unfold supervisor_call. now rewrite Hc.
      * intros Hall. inversion Hall; subst. lia.
    + destruct (poll' p st) as [fl st'] eqn:P.
      pose proof P as P'. rewrite (poll_full p st Hge) in P'.
      assert (Hfl : fl = Continue) by congruence. subst fl.
      rewrite <- (poll_count_death _ _ _ P).
      destruct (IH st') as [Hle Heq]. split; [exact Hle|].
      intros Hall. inversion Hall; subst. now apply Heq.
Qed.

(** X8: no run sends the death mail more than once, and a run in which
    every poll sees at least three greenlets sends none, also when it ends
    on the interrupt signal. *)
Theorem death_alert_at_most_once polls :
  (count is_death (trace (run_state (main' polls))) <= 1)%nat /\
  (Forall (fun p => (3 <= List.length (group p))%nat) polls ->
   count is_death (trace (run_state (main' polls))) = 0%nat).
Proof.
  assert (Hm : count is_death (trace (run_state (main' polls)))
               = count is_death (trace (run_state (main_loop' polls booted)))).
  { unfold main. destruct (main_loop' polls booted); cbn [run_state]; [|reflexivity].
    rewrite exec_shutdown. cbn [trace]. rewrite count_app.
    change (count is_death shutdown_calls) with 0%nat. now rewrite Nat.add_0_r. }
  rewrite Hm. destruct (main_loop_death_count polls booted) as [Hle Heq].
  change (count is_death (trace booted)) with 0%nat in *. split.
  - exact Hle.
  - exact Heq.
Qed.

Lemma all_started_fold g : forall acc,
  fold_left (fun send_start_email g =>
               if negb (started g) then false else send_start_email) g acc
  = acc && forallb started g.
Proof.
  induction g as [|x g IH]; intros acc; cbn [fold_left forallb].
  - now rewrite andb_true_r.
  - rewrite IH. destruct (started x), acc; reflexivity.
Qed.

Lemma all_started_forallb g : all_started g = forallb started g.
Proof. unfold all_started. now rewrite all_started_fold. Qed.

Lemma main_loop_unsent polls : forall st,
  sent_start_email st = false ->
  Forall (fun p => forallb started (group p) = false) polls ->
  sent_start_email (run_state (main_loop' polls st)) = false.
Proof.
  induction polls as [|p polls IH]; intros st Hs Hall; cbn [main_loop].
  - now destruct (keep_running st).
  - destruct (keep_running st); [|exact Hs].
    inversion Hall as [|? ? Hp Hrest]; subst.
    destruct (sleep_flags (arrivals p) st) as [HS _]. fold (after_sleep' p st) in HS.
    destruct (Nat.ltb_spec (List.length (group p)) 3) as [Hlt|Hge].
    + rewrite (poll_dead p st Hlt). cbn [run_state sent_start_email]. congruence.
    + rewrite (poll_full p st Hge), all_started_forallb, Hp, andb_false_r.
      apply IH; [congruence | exact Hrest].
Qed.

(** X9: the "started" mail is never sent early: a run in which every poll
    still sees some greenlet that has not started sends none. *)
Theorem no_healthy_alert_before_all_started polls :
  (forall p, In p polls -> forallb started (group p) = false) ->
  count is_alive (trace (run_state (main' polls))) = 0%nat.
Proof.
  intros Hall. rewrite main_alive.
  pose proof (main_loop_alive_matches polls booted booted_alive_matches) as Hinv.
  unfold alive_matches_flag in Hinv. rewrite Hinv.
  rewrite (main_loop_unsent polls booted eq_refl); [reflexivity|].
  now apply Forall_forall.
Qed.

(** X10: the interrupt signal does not cut the iteration short.  When it
    arrives during the sleep of the first poll at which all of at least
    three greenlets are started, the "started" mail is still sent, and only
    then are the tasks stopped. *)
Theorem interrupted_poll_still_reports_start pre p post st1 :
  main_loop' pre booted = Polling st1 ->
  sent_start_email st1 = false ->
  In SIGINT (arrivals p) ->
  (3 <= List.length (group p))%nat ->
  forallb started (group p) = true ->
  exists stf,
    main' (pre ++ p :: post) = Exited stf /\
    trace stf = trace (after_sleep' p st1) ++
                [ Call_log INFO (Msg_text STARTED_MSG);
                  Call_email_alive STARTED_MSG;
                  Call_log INFO (Msg_text "stopping greenlets");
                  Call_stop WavesUTX;
                  Call_stop ZapRPC ].
Proof.
  intros Hpre Hsent Hsig Hge Hstarted.
  destruct (main_loop_polling _ _ _ Hpre) as [K Happ].
  destruct (sleep_flags (arrivals p) st1) as [HS HK].
  fold (after_sleep' p st1) in HS, HK.
  eexists. split.
  - unfold main. rewrite Happ. cbn [main_loop]. rewrite K, (poll_full p st1 Hge).
    rewrite HS, Hsent, all_started_forallb, Hstarted. cbn [negb andb].
    rewrite main_loop_stopped; [reflexivity|].
    cbn [keep_running]. rewrite HK, (sigint_seen _ Hsig). apply andb_false_r.
  - rewrite exec_shutdown. cbn [trace]. now rewrite <- app_assoc.
Qed.

End Facts.

(** ** The attachment codec *)

Import AttachmentCodec.

Lemma parse_field_cases attachment :
  (exists id, parse_field attachment = Returns id) \/
  (exists e, parse_field attachment = Raises e).
Proof.
  destruct (parse_field attachment) as [id|e]; [left | right]; eauto.
Qed.

(** C3: decoding is total.  For every byte string [decode] returns, with
    either a present invoice id or the absent value; it raises for no
    input, and the empty attachment decodes to absent. *)
Theorem decode_total (attachment : bytes) :
  (decode attachment = Returns None \/
   exists id, decode attachment = Returns (Some id)) /\
  (forall e, decode attachment <> Raises e) /\
  decode [] = Returns None.
Proof.
  unfold decode.
  destruct (parse_field_cases attachment) as [[id H]|[e H]]; rewrite H; simpl.
  - split; [right; eauto | split; [discriminate | reflexivity]].
  - split; [left; reflexivity | split; [discriminate | reflexivity]].
Qed.

Lemma decode_encode invoice_id attachment :
  encode invoice_id = Some attachment ->
  decode attachment = Returns (Some invoice_id).
Proof.
  unfold encode.
  destruct (Byte.of_N _) as [len|] eqn:Hlen; [|discriminate].
  intros H; inversion H; subst; clear H.
  apply Byte.to_of_N in Hlen.
  unfold decode, parse_field; simpl.
  rewrite Hlen, N.eqb_refl, string_of_list_byte_of_string. reflexivity.
Qed.

Example encode_inv42 : encode "INV-42" = Some Demo.inv42.
Proof. reflexivity. Qed.

Example decode_inv42 : decode Demo.inv42 = Returns (Some "INV-42").
Proof. reflexivity. Qed.

Example decode_truncated : decode [x01; x06; x49] = Returns None.
Proof. reflexivity. Qed.

(** ** Where the code differs from the specification *)

(** C8, counterexample: a transfer to someone else is logged at INFO,
    which is above the finest level the logger has, and the state is not
    what it was. *)
Lemma other_recipient_is_logged_at_info :
  Demo.b58encode (tx_recipient (Demo.transfer Demo.stranger Demo.inv42)) <> Demo.address /\
  emitted (Demo.on_event (Demo.transfer Demo.stranger Demo.inv42)) initial
  = [Call_log INFO (Msg_transfer "t1" "3SomeoneElse" 500000 Demo.inv42)] /\
  above_trace_level INFO = true /\
  exec (Demo.on_event (Demo.transfer Demo.stranger Demo.inv42)) initial <> initial.
Proof.
  split; [vm_compute; discriminate|].
  split; [reflexivity|].
  split; [reflexivity|].
  vm_compute; discriminate.
Qed.

(** C6, counterexample: the handler does more than clear the flag, it
    also writes a warning to the log. *)
Lemma sigint_handler_also_logs :
  exec sigint_handler initial <> exec (set_keep_running false) initial /\
  emitted sigint_handler initial
  = [Call_log WARNING (Msg_text "SIGINT caught, attempting to exit gracefully")].
Proof.
  split; [vm_compute; discriminate | reflexivity].
Qed.

(** ** The theorems at concrete inputs *)

Lemma other_recipient_no_notification_witness :
  count is_signing
    (emitted (Demo.on_event (Demo.transfer Demo.stranger Demo.inv42)) initial) = 0%nat /\
  count is_webhook
    (emitted (Demo.on_event (Demo.transfer Demo.stranger Demo.inv42)) initial) = 0%nat.
Proof.
  apply (other_recipient_no_notification
           Demo.b58encode Demo.address Demo.address_from_public_key
           AttachmentCodec.invoice_id_of Demo.sign
           (Demo.transfer Demo.stranger Demo.inv42) initial).
  vm_compute; discriminate.
Defined.

Lemma undecodable_attachment_still_notified_witness :
  count is_webhook
    (emitted (Demo.on_event (Demo.transfer Demo.merchant [xff; x00])) initial) = 1%nat.
Proof.
  apply (undecodable_attachment_still_notified
           Demo.b58encode Demo.address Demo.address_from_public_key
           AttachmentCodec.invoice_id_of Demo.sign
           (Demo.transfer Demo.merchant [xff; x00]) initial);
    reflexivity.
Defined.

Lemma other_recipient_logs_transfer_only_witness :
  count is_loud_log
    (emitted (Demo.on_event (Demo.transfer Demo.stranger Demo.inv42)) initial) = 1%nat.
Proof.
  apply (other_recipient_logs_transfer_only
           Demo.b58encode Demo.address Demo.address_from_public_key
           AttachmentCodec.invoice_id_of Demo.sign
           (Demo.transfer Demo.stranger Demo.inv42) initial).
  vm_compute; discriminate.
Defined.

Lemma transaction_signature_discarded_witness :
  filter is_webhook
    (emitted (on_transfer_utx Demo.b58encode Demo.address Demo.address_from_public_key
                AttachmentCodec.invoice_id_of Demo.sign
                WavesUTX "t1" [xaa; xbb] [x50; x4b] None 1600000000000 500000 100000
                Demo.merchant Demo.inv42) initial)
  = [Call_webhook
       (fst (Demo.sign "t1" 1600000000000 Demo.address "3PPK" 500000 (Some "INV-42")))
       (snd (Demo.sign "t1" 1600000000000 Demo.address "3PPK" 500000 (Some "INV-42")))].
Proof.
  apply (transaction_signature_discarded
           Demo.b58encode Demo.address Demo.address_from_public_key
           AttachmentCodec.invoice_id_of Demo.sign
           WavesUTX "t1" [xaa; xbb] [x00] [x50; x4b] None 1600000000000 500000 100000
           Demo.merchant Demo.inv42 initial).
  reflexivity.
Defined.

Lemma dead_worker_alert_then_shutdown_witness :
  exists stf,
    Demo.program ([Demo.healthy] ++ Demo.crashed :: [Demo.healthy]) = Exited stf /\
    trace stf =
      trace (after_sleep Demo.b58encode Demo.address Demo.address_from_public_key
               AttachmentCodec.invoice_id_of Demo.sign Demo.crashed
               (run_state (Demo.loop [Demo.healthy] booted))) ++
      [ Call_log ERROR (Msg_text DEAD_MSG);
        Call_email_death DEAD_MSG;
        Call_log INFO (Msg_text "stopping greenlets");
        Call_stop WavesUTX;
        Call_stop ZapRPC ] /\
    count is_death (trace stf) = 1%nat /\
    (forall t : Task, In (Call_stop t) (trace stf)).
Proof.
  apply (dead_worker_alert_then_shutdown
           Demo.b58encode Demo.address Demo.address_from_public_key
           AttachmentCodec.invoice_id_of Demo.sign
           [Demo.healthy] Demo.crashed [Demo.healthy]
           (run_state (Demo.loop [Demo.healthy] booted))).
  - reflexivity.
  - simpl; lia.
Defined.

Lemma healthy_alert_once_witness :
  count is_alive
    (trace (run_state
              (Demo.program [Demo.warming; Demo.healthy; Demo.healthy; Demo.crashed])))
  = 1%nat.
Proof.
  apply (proj1 (proj2 (proj2
           (healthy_alert_once
              Demo.b58encode Demo.address Demo.address_from_public_key
              AttachmentCodec.invoice_id_of Demo.sign
              [Demo.warming; Demo.healthy; Demo.healthy; Demo.crashed])))
           [Demo.warming] Demo.healthy [Demo.healthy; Demo.crashed]
           (run_state (Demo.loop [Demo.warming] booted))).
  - reflexivity.
  - reflexivity.
  - simpl; lia.
  - reflexivity.
Defined.

Lemma death_check_precedes_start_check_witness :
  exists stf,
    Demo.program ([Demo.warming] ++ Demo.crashed :: [Demo.healthy]) = Exited stf /\
    count is_alive (trace stf) = 0%nat /\
    count is_death (trace stf) = 1%nat /\
    trace stf =
      trace (after_sleep Demo.b58encode Demo.address Demo.address_from_public_key
               AttachmentCodec.invoice_id_of Demo.sign Demo.crashed
               (run_state (Demo.loop [Demo.warming] booted))) ++
      death_calls ++ shutdown_calls.
Proof.
  apply (death_check_precedes_start_check
           Demo.b58encode Demo.address Demo.address_from_public_key
           AttachmentCodec.invoice_id_of Demo.sign
           [Demo.warming] Demo.crashed [Demo.healthy]
           (run_state (Demo.loop [Demo.warming] booted))).
  - reflexivity.
  - reflexivity.
  - simpl; lia.
Defined.

Lemma sigint_flag_then_shutdown_witness :
  exists st2,
    st2 = snd (poll Demo.b58encode Demo.address Demo.address_from_public_key
                 AttachmentCodec.invoice_id_of Demo.sign Demo.interrupted
                 (run_state (Demo.loop [Demo.healthy] booted))) /\
    keep_running st2 = false /\
    Demo.program ([Demo.healthy] ++ Demo.interrupted :: [Demo.healthy])
    = Exited (exec shutdown st2) /\
    trace (exec shutdown st2) =
      trace st2 ++ [ Call_log INFO (Msg_text "stopping greenlets");
                     Call_stop WavesUTX;
                     Call_stop ZapRPC ].
Proof.
  apply (proj2 (sigint_flag_then_shutdown
                  Demo.b58encode Demo.address Demo.address_from_public_key
                  AttachmentCodec.invoice_id_of Demo.sign)
               [Demo.healthy] Demo.interrupted [Demo.healthy]
               (run_state (Demo.loop [Demo.healthy] booted))).
  - reflexivity.
  - simpl; auto.
Defined.

(** ** Vital settings *)

Import AppCore.

Lemma dict_get_set_same d k v : dict_get (dict_set d k v) k = Some v.
Proof.
  induction d as [|[k' v'] d IH]; simpl.
  - now rewrite String.eqb_refl.
  - destruct (String.eqb k' k) eqn:E; simpl; rewrite E; [reflexivity | exact IH].
Qed.

Lemma dict_get_set_other d k k' v :
  k' <> k -> dict_get (dict_set d k v) k' = dict_get d k'.
Proof.
  intros Hne. induction d as [|[k0 v0] d IH]; simpl.
  - destruct (String.eqb_spec k k'); [congruence | reflexivity].
  - destruct (String.eqb_spec k0 k) as [->|Hk]; simpl.
    + destruct (String.eqb_spec k k'); [congruence | reflexivity].
    + destruct (String.eqb k0 k'); [reflexivity | exact IH].
Qed.

Lemma stored_config (getenv : Env) env_name setting_name acceptable_values st value :
  getenv env_name = Some value -> value <> "" ->
  config (set_vital_setting getenv env_name setting_name acceptable_values st)
  = dict_set (dict_set (config st) (effective_name env_name setting_name) (VStr value))
             env_name (VStr value).
Proof.
  intros Henv Hne. unfold set_vital_setting. rewrite Henv.
  apply String.eqb_neq in Hne. rewrite Hne.
  now destruct (rejected value acceptable_values).
Qed.

Lemma missing_config (getenv : Env) env_name setting_name acceptable_values st :
  truthy (getenv env_name) = false ->
  set_vital_setting getenv env_name setting_name acceptable_values st
  = mkSettings (config st) true (printed st ++ [Line_missing env_name]).
Proof.
  unfold set_vital_setting, truthy. destruct (getenv env_name) as [value|]; [|reflexivity].
  destruct (String.eqb value ""); [reflexivity | discriminate].
Qed.

Lemma truthy_value (getenv : Env) env_name :
  truthy (getenv env_name) = true ->
  exists value, getenv env_name = Some value /\ value <> "".
Proof.
  unfold truthy. destruct (getenv env_name) as [value|]; [|discriminate].
  intros H. exists value. split; [reflexivity|].
  apply String.eqb_neq. now destruct (String.eqb value "").
Qed.

Lemma written_key (getenv : Env) env_name setting_name acceptable_values st value k :
  getenv env_name = Some value -> value <> "" ->
  writes k (env_name, setting_name) = true ->
  dict_get (config (set_vital_setting getenv env_name setting_name acceptable_values st)) k
  = Some (VStr value).
Proof.
  intros Henv Hne Hw. rewrite (stored_config _ _ _ _ _ _ Henv Hne).
  unfold writes in Hw. cbn [fst snd] in Hw.
  destruct (String.eqb_spec k env_name) as [->|Hk].
  - apply dict_get_set_same.
  - cbn [orb] in Hw. apply String.eqb_eq in Hw. subst k.
    rewrite dict_get_set_other by exact Hk. apply dict_get_set_same.
Qed.

Lemma untouched_key (getenv : Env) env_name setting_name acceptable_values st k :
  writes k (env_name, setting_name) = false ->
  dict_get (config (set_vital_setting getenv env_name setting_name acceptable_values st)) k
  = dict_get (config st) k.
Proof.
  intros Hw. unfold writes in Hw. cbn [fst snd] in Hw.
  apply orb_false_elim in Hw as [H1 H2].
  apply String.eqb_neq in H1. apply String.eqb_neq in H2.
  destruct (truthy (getenv env_name)) eqn:T.
  - destruct (truthy_value _ _ T) as (value & Henv & Hne).
    rewrite (stored_config _ _ _ _ _ _ Henv Hne).
    now rewrite !dict_get_set_other.
  - now rewrite missing_config.
Qed.

(** X11: a variable that is set and not empty is stored in [app.config]
    under the setting name and under the environment name, all other keys
    keep their values, and this also happens when the value is not among
    the acceptable ones; the flag is then raised, and it is never lowered. *)
Theorem vital_setting_stored (getenv : Env) env_name setting_name acceptable_values st value :
  getenv env_name = Some value ->
  value <> "" ->
  let st' := set_vital_setting getenv env_name setting_name acceptable_values st in
  dict_get (config st') env_name = Some (VStr value) /\
  dict_get (config st') (effective_name env_name setting_name) = Some (VStr value) /\
  (forall k, k <> env_name -> k <> effective_name env_name setting_name ->
             dict_get (config st') k = dict_get (config st) k) /\
  MISSING_VITAL_SETTING st'
  = MISSING_VITAL_SETTING st || rejected value acceptable_values.
Proof.
  intros Henv Hne. cbv zeta. split; [|split; [|split]].
  - apply written_key; [exact Henv | exact Hne |].
    unfold writes. cbn [fst]. now rewrite String.eqb_refl.
  - apply written_key; [exact Henv | exact Hne |].
    unfold writes. cbn [fst snd]. rewrite String.eqb_refl. apply orb_true_r.
  - intros k H1 H2. apply untouched_key. unfold writes. cbn [fst snd].
    apply String.eqb_neq in H1. apply String.eqb_neq in H2. now rewrite H1, H2.
  - unfold set_vital_setting. rewrite Henv.
    apply String.eqb_neq in Hne. rewrite Hne.
    destruct (rejected value acceptable_values); cbn [MISSING_VITAL_SETTING].
    + now rewrite orb_true_r.
    + now rewrite orb_false_r.
Qed.

Lemma set_all_report (getenv : Env) calls : forall st,
  MISSING_VITAL_SETTING (set_all getenv calls st)
  = MISSING_VITAL_SETTING st
    || existsb (fun c => negb (truthy (getenv (fst c)))) calls /\
  printed (set_all getenv calls st)
  = printed st ++
    map Line_missing (filter (fun e => negb (truthy (getenv e))) (map fst calls)).
Proof.
  unfold set_all.
  induction calls as [|[e s] calls IH]; intros st; cbn [fold_left existsb map filter fst].
  - now rewrite orb_false_r, app_nil_r.
  - destruct (IH (set_vital_setting getenv e s None st)) as [Hflag Hprinted].
    rewrite Hflag, Hprinted. clear IH Hflag Hprinted.
    destruct (truthy (getenv e)) eqn:T; cbn [negb orb].
    + destruct (truthy_value _ _ T) as (value & Henv & Hne).
      unfold set_vital_setting. rewrite Henv.
      apply String.eqb_neq in Hne. rewrite Hne. cbn [rejected MISSING_VITAL_SETTING printed].
      split; reflexivity.
    + rewrite missing_config by exact T. cbn [MISSING_VITAL_SETTING printed map].
      split; [now rewrite orb_true_r | now rewrite <- app_assoc].
Qed.

(** X12: after the eighteen calls of lines 144-162 the flag is raised
    exactly when it was raised before or one of the eighteen variables is
    unset or empty, and one "no NAME" line has been printed for each such
    variable, in the order of the calls. *)
Theorem vital_settings_report (getenv : Env) st :
  let st' := set_vital_settings getenv st in
  MISSING_VITAL_SETTING st'
  = MISSING_VITAL_SETTING st
    || existsb (fun c => negb (truthy (getenv (fst c)))) VITAL_SETTINGS /\
  printed st'
  = printed st ++
    map Line_missing
        (filter (fun e => negb (truthy (getenv e))) (map fst VITAL_SETTINGS)).
Proof. cbv zeta. unfold set_vital_settings. apply set_all_report. Qed.

Lemma set_all_last_writer (getenv : Env) calls k e v : forall st,
  getenv e = Some v -> v <> "" ->
  forallb (fun c => implb (writes k c) (String.eqb (fst c) e)) calls = true ->
  existsb (writes k) calls = true \/ dict_get (config st) k = Some (VStr v) ->
  dict_get (config (set_all getenv calls st)) k = Some (VStr v).
Proof.
  unfold set_all.
  induction calls as [|[e1 s1] calls IH]; intros st Henv Hne Hall Hor;
    cbn [fold_left forallb existsb] in *.
  - destruct Hor as [Hor|Hor]; [discriminate | exact Hor].
  - apply andb_prop in Hall as [Hc Hall].
    apply IH; [exact Henv | exact Hne | exact Hall |].
    destruct (writes k (e1, s1)) eqn:W.
    + right. cbn [implb fst] in Hc. apply String.eqb_eq in Hc. subst e1.
      now apply written_key.
    + cbn [orb] in Hor. destruct Hor as [Hor|Hor]; [left; exact Hor | right].
      now rewrite untouched_key.
Qed.

(** X13: after the eighteen calls, every variable among them that is set
    and not empty can be read back from [app.config] under its environment
    name and under its setting name (so [SECRET_KEY] holds [SESSION_KEY]):
    no later call overwrites what an earlier one stored. *)
Theorem vital_settings_loaded (getenv : Env) st env_name setting_name value :
  In (env_name, setting_name) VITAL_SETTINGS ->
  getenv env_name = Some value ->
  value <> "" ->
  dict_get (config (set_vital_settings getenv st)) env_name = Some (VStr value) /\
  dict_get (config (set_vital_settings getenv st)) (effective_name env_name setting_name)
  = Some (VStr value).
Proof.
  intros Hin Henv Hne. unfold set_vital_settings.
  unfold VITAL_SETTINGS in Hin. cbn [In] in Hin.
  repeat (destruct Hin as [Hin|Hin];
    [ inversion Hin; subst env_name setting_name; clear Hin;
      split; apply (set_all_last_writer getenv VITAL_SETTINGS _ _ value st Henv Hne);
      solve [ reflexivity | left; reflexivity ] | ]).
  contradiction.
Qed.

Lemma vital_setting_stored_witness :
  dict_get (config (set_vital_setting demo_env "SESSION_KEY" (Some "SECRET_KEY")
                      (Some ["a"; "b"]) fresh)) "SECRET_KEY"
  = Some (VStr "s3cret").
Proof.
  apply (vital_setting_stored demo_env "SESSION_KEY" (Some "SECRET_KEY")
           (Some ["a"; "b"]) fresh "s3cret").
  - reflexivity.
  - discriminate.
Defined.

Lemma vital_settings_loaded_witness :
  dict_get (config (set_vital_settings demo_env fresh)) "SECRET_KEY"
  = Some (VStr "s3cret").
Proof.
  apply (vital_settings_loaded demo_env fresh "SESSION_KEY" (Some "SECRET_KEY") "s3cret").
  - cbn. auto.
  - reflexivity.
  - discriminate.
Defined.

(** ** The further facts at concrete inputs *)

Lemma matching_event_notifies_once_witness :
  exec (Demo.on_event (Demo.transfer Demo.merchant Demo.inv42)) initial =
  mkState true false
    [ Call_log INFO (Msg_transfer "t1" Demo.address 500000 Demo.inv42);
      Call_address_from_public_key [x50; x4b];
      Call_extract_invoice_id Demo.inv42;
      Call_create_signed_payment_notification
        "t1" 1600000000000 Demo.address "3PPK" 500000 (Some "INV-42");
      Call_webhook
        (fst (Demo.sign "t1" 1600000000000 Demo.address "3PPK" 500000 (Some "INV-42")))
        (snd (Demo.sign "t1" 1600000000000 Demo.address "3PPK" 500000 (Some "INV-42"))) ].
Proof.
  apply (matching_event_notifies_once
           Demo.b58encode Demo.address Demo.address_from_public_key
           AttachmentCodec.invoice_id_of Demo.sign
           (Demo.transfer Demo.merchant Demo.inv42) initial).
  reflexivity.
Defined.

Lemma run_webhooks_follow_arrivals_witness :
  filter is_webhook
    (trace (run_state (Demo.program [Demo.healthy; Demo.warming; Demo.healthy])))
  = flat_map (fun p => expected_webhooks Demo.b58encode Demo.address
                         Demo.address_from_public_key AttachmentCodec.invoice_id_of
                         Demo.sign (arrivals p))
             [Demo.healthy; Demo.warming; Demo.healthy].
Proof.
  apply (run_webhooks_follow_arrivals
           Demo.b58encode Demo.address Demo.address_from_public_key
           AttachmentCodec.invoice_id_of Demo.sign
           [Demo.healthy; Demo.warming; Demo.healthy]
           (run_state (Demo.program [Demo.healthy; Demo.warming; Demo.healthy]))).
  reflexivity.
Defined.

Lemma fatal_poll_still_notifies_witness :
  exists stf,
    Demo.program ([Demo.healthy] ++ Demo.last_gasp :: [Demo.healthy]) = Exited stf /\
    trace stf =
      trace (run_state (Demo.loop [Demo.healthy] booted)) ++
      flat_map (deliver_calls Demo.b58encode Demo.address Demo.address_from_public_key
                  AttachmentCodec.invoice_id_of Demo.sign)
               (arrivals Demo.last_gasp) ++
      [ Call_log ERROR (Msg_text DEAD_MSG);
        Call_email_death DEAD_MSG;
        Call_log INFO (Msg_text "stopping greenlets");
        Call_stop WavesUTX;
        Call_stop ZapRPC ] /\
    filter is_webhook
      (flat_map (deliver_calls Demo.b58encode Demo.address Demo.address_from_public_key
                   AttachmentCodec.invoice_id_of Demo.sign)
                (arrivals Demo.last_gasp))
    = expected_webhooks Demo.b58encode Demo.address Demo.address_from_public_key
        AttachmentCodec.invoice_id_of Demo.sign (arrivals Demo.last_gasp) /\
    filter is_webhook (trace stf) =
    flat_map (fun q => expected_webhooks Demo.b58encode Demo.address
                         Demo.address_from_public_key AttachmentCodec.invoice_id_of
                         Demo.sign (arrivals q))
             ([Demo.healthy] ++ [Demo.last_gasp]).
Proof.
  apply (fatal_poll_still_notifies
           Demo.b58encode Demo.address Demo.address_from_public_key
           AttachmentCodec.invoice_id_of Demo.sign
           [Demo.healthy] Demo.last_gasp [Demo.healthy]
           (run_state (Demo.loop [Demo.healthy] booted))).
  - reflexivity.
  - simpl; lia.
Defined.

Lemma death_alert_at_most_once_witness :
  count is_death
    (trace (run_state (Demo.program [Demo.healthy; Demo.interrupted])))
  = 0%nat.
Proof.
  apply (death_alert_at_most_once
           Demo.b58encode Demo.address Demo.address_from_public_key
           AttachmentCodec.invoice_id_of Demo.sign
           [Demo.healthy; Demo.interrupted]).
  repeat constructor.
Defined.

Lemma no_healthy_alert_before_all_started_witness :
  count is_alive (trace (run_state (Demo.program [Demo.warming; Demo.warming]))) = 0%nat.
Proof.
  apply (no_healthy_alert_before_all_started
           Demo.b58encode Demo.address Demo.address_from_public_key
           AttachmentCodec.invoice_id_of Demo.sign
           [Demo.warming; Demo.warming]).
  intros p [<-|[<-|[]]]; reflexivity.
Defined.

Lemma interrupted_poll_still_reports_start_witness :
  exists stf,
    Demo.program ([Demo.warming] ++ Demo.interrupted :: [Demo.healthy]) = Exited stf /\
    trace stf =
      trace (after_sleep Demo.b58encode Demo.address Demo.address_from_public_key
               AttachmentCodec.invoice_id_of Demo.sign Demo.interrupted
               (run_state (Demo.loop [Demo.warming] booted))) ++
      [ Call_log INFO (Msg_text STARTED_MSG);
        Call_email_alive STARTED_MSG;
        Call_log INFO (Msg_text "stopping greenlets");
        Call_stop WavesUTX;
        Call_stop ZapRPC ].
Proof.
  apply (interrupted_poll_still_reports_start
           Demo.b58encode Demo.address Demo.address_from_public_key
           AttachmentCodec.invoice_id_of Demo.sign
           [Demo.warming] Demo.interrupted [Demo.healthy]
           (run_state (Demo.loop [Demo.warming] booted))).
  - reflexivity.
  - reflexivity.
  - simpl; auto.
  - simpl; lia.
  - reflexivity.
Defined.
